(** * seguridad.js: the password gate in front of the exercise solutions

    A shallow embedding of [showSolutionPrompt] (src/js/seguridad.js) and
    the properties of its contract.

    The function talks to three browser facilities: the modal dialogs
    ([prompt], [alert]), the developer console ([console.error]) and the
    page ([document.getElementById], [element.style.display]).  They are
    modelled by a state monad over a [Browser] record:

    - the page is the list of its elements in document order, each with its
      [id], its inline style and its remaining attributes;
    - the visitor is the sequence of answers they will give to the prompts
      to come ([None] is the Cancel button, which makes [prompt] return
      [null]);
    - every dialog shown and every console line written is appended to a
      chronological log.

    JavaScript strings are modelled by [string] (the UTF-8 bytes of the
    source text), [===] on strings by [String.eqb].  The argument of the
    function is a string, as its JSDoc says, and every element of the page
    has a [style] (it is an HTML element), so that the assignment to
    [style.display] cannot throw. *)

From stdpp Require Import base option list strings gmap.

(** ** The page *)

(** The inline style of an element: the [display] property the script
    writes, and all the other properties it never touches. *)
Record CSSStyleDeclaration := {
  display : string;
  otherProperties : list (string * string)
}.

(** An element of the page.  [elemId] is the empty string for an element
    without an [id] attribute. *)
Record Element := {
  elemId : string;
  style : CSSStyleDeclaration;
  attributes : list (string * string)
}.

(** What the browser shows or records on behalf of the script. *)
Inductive Event :=
| Prompt (message : string)
| Alert (message : string)
| ConsoleError (args : list string).

Record Browser := {
  document : list Element;
  answers : nat -> option string;
  log : list Event
}.

(** ** The script monad *)

Definition Script (A : Type) : Type := Browser -> A * Browser.

#[global] Instance Script_ret : MRet Script := λ A (a : A) w, (a, w).

#[global] Instance Script_bind : MBind Script :=
  λ A B (f : A -> Script B) (m : Script A) w, let (a, w') := m w in f a w'.

(** [alert(message)] *)
Definition alert (message : string) : Script unit := λ w,
  (tt, {| document := document w; answers := answers w;
          log := log w ++ [Alert message] |}).

(** [console.error(...args)] *)
Definition console_error (args : list string) : Script unit := λ w,
  (tt, {| document := document w; answers := answers w;
          log := log w ++ [ConsoleError args] |}).

(** [prompt(message)]: shows the dialog and returns the visitor's next
    answer, [None] standing for [null]. *)
Definition prompt (message : string) : Script (option string) := λ w,
  (answers w 0,
   {| document := document w; answers := λ n, answers w (S n);
      log := log w ++ [Prompt message] |}).

(** [document.getElementById(elementId)]: a reference to (the position of)
    the first element in document order with that id, [None] standing for
    [null].  The empty id matches nothing.  [findById] is the search itself,
    which also gives the element found. *)
Definition findById (elementId : string) (doc : list Element)
  : option (nat * Element) :=
  if decide (elementId = EmptyString) then None
  else list_find (λ e, elemId e = elementId) doc.

Definition getElementById (elementId : string) : Script (option nat) := λ w,
  (fst <$> findById elementId (document w), w).

Definition setDisplay (value : string) (e : Element) : Element :=
  {| elemId := elemId e;
     style := {| display := value;
                 otherProperties := otherProperties (style e) |};
     attributes := attributes e |}.

(** [ref.style.display = value] *)
Definition set_style_display (ref : nat) (value : string) : Script unit := λ w,
  (tt, {| document := alter (setDisplay value) ref (document w);
          answers := answers w; log := log w |}).

(** ** The script *)

Definition dquote : string := String (Ascii.ascii_of_nat 34) EmptyString.

(** The [switch] of step 1: the password of the exercise, [None] when the
    [default] branch is taken. *)
Definition correctPassword (exerciseId : string) : option string :=
  if String.eqb exerciseId "UD1-1" then Some "cliente-servidor"
  else if String.eqb exerciseId "UD1-2" then Some "http"
  else if String.eqb exerciseId "db-05" then Some "persistencia_nexus"
  else None.

(** The template literal passed to [prompt]. *)
Definition promptMessage (exerciseId : string) : string :=
  "Introduce la contraseña para ver la solución del ejercicio "
    +:+ dquote +:+ exerciseId +:+ dquote +:+ ":".

Definition showSolutionPrompt (exerciseId : string) : Script unit :=
  match correctPassword exerciseId with
  | None =>
      console_error ["Error: ID de ejercicio no reconocido:"; exerciseId];;
      alert "Error de configuración: No se ha encontrado el ejercicio."
  | Some correct =>
      enteredPassword ← prompt (promptMessage exerciseId);
      match enteredPassword with
      | None => mret tt
      | Some enteredPassword =>
          if String.eqb enteredPassword correct then
            solutionBlock ← getElementById ("solution-" +:+ exerciseId);
            match solutionBlock with
            | Some solutionBlock => set_style_display solutionBlock "block"
            | None =>
                console_error
                  ["Error: No se encontró el bloque de solución con el ID: solution-"
                     +:+ exerciseId];;
                alert "Error de configuración: No se encuentra el contenido de la solución."
            end
          else alert "Contraseña incorrecta."
      end
  end.

(** The browser after one call. *)
Definition run (exerciseId : string) (w : Browser) : Browser :=
  (showSolutionPrompt exerciseId w).2.

(** ** Vocabulary of the contract *)

(** The notifications of the error-handling design: a user-facing alert,
    preceded for the two configuration errors by a console trace. *)
Definition UnrecognizedExercise (exerciseId : string) : list Event :=
  [ConsoleError ["Error: ID de ejercicio no reconocido:"; exerciseId];
   Alert "Error de configuración: No se ha encontrado el ejercicio."].

Definition MissingSolutionElement (exerciseId : string) : list Event :=
  [ConsoleError
     ["Error: No se encontró el bloque de solución con el ID: solution-"
        +:+ exerciseId];
   Alert "Error de configuración: No se encuentra el contenido de la solución."].

Definition WrongPassword : list Event := [Alert "Contraseña incorrecta."].

(** The ExerciseRegistry as the specification describes it: a fixed mapping
    from exercise identifier to expected password.  It is compared with the
    [switch] of the source, [correctPassword], below. *)
Definition ExerciseRegistry : gmap string string :=
  <["UD1-1" := "cliente-servidor"]>
    (<["UD1-2" := "http"]> (<["db-05" := "persistencia_nexus"]> ∅)).

Definition registeredIds : list string := ["UD1-1"; "UD1-2"; "db-05"].

(** The texts of the alerts, and the messages of the prompts, in a log. *)
Definition alerts (l : list Event) : list string :=
  omap (λ ev, match ev with Alert m => Some m | _ => None end) l.

Definition prompts (l : list Event) : list string :=
  omap (λ ev, match ev with Prompt m => Some m | _ => None end) l.

Definition consoleErrors (l : list Event) : list (list string) :=
  omap (λ ev, match ev with ConsoleError a => Some a | _ => None end) l.

(** An element is shown when the script's value is in its inline style. *)
Definition visible (e : Element) : Prop := display (style e) = "block".

(** The five ways a call can end, with the browser each leaves behind. *)
Inductive Outcome (exerciseId : string) (w : Browser) : Browser -> Prop :=
| Unrecognized :
    correctPassword exerciseId = None ->
    Outcome exerciseId w
      {| document := document w; answers := answers w;
         log := log w ++ UnrecognizedExercise exerciseId |}
| Cancelled pw :
    correctPassword exerciseId = Some pw ->
    answers w 0 = None ->
    Outcome exerciseId w
      {| document := document w; answers := λ n, answers w (S n);
         log := log w ++ [Prompt (promptMessage exerciseId)] |}
| Mismatched pw p :
    correctPassword exerciseId = Some pw ->
    answers w 0 = Some p ->
    p ≠ pw ->
    Outcome exerciseId w
      {| document := document w; answers := λ n, answers w (S n);
         log := log w ++ Prompt (promptMessage exerciseId) :: WrongPassword |}
| Missing pw :
    correctPassword exerciseId = Some pw ->
    answers w 0 = Some pw ->
    findById ("solution-" +:+ exerciseId) (document w) = None ->
    Outcome exerciseId w
      {| document := document w; answers := λ n, answers w (S n);
         log := log w ++ Prompt (promptMessage exerciseId)
                           :: MissingSolutionElement exerciseId |}
| Revealed pw i e :
    correctPassword exerciseId = Some pw ->
    answers w 0 = Some pw ->
    findById ("solution-" +:+ exerciseId) (document w) = Some (i, e) ->
    Outcome exerciseId w
      {| document := alter (setDisplay "block") i (document w);
         answers := λ n, answers w (S n);
         log := log w ++ [Prompt (promptMessage exerciseId)] |}.

(** ** A page to try the script on *)

Definition block (i d : string) : Element :=
  {| elemId := i;
     style := {| display := d; otherProperties := [("color", "navy")] |};
     attributes := [("class", "solution")] |}.

(** A page with the solution of UD1-1, hidden, between two other blocks, and
    a visitor who gives the same answer to every prompt. *)
Definition page_UD1_1 (answer : option string) : Browser :=
  {| document := [block "enunciado" "block"; block "solution-UD1-1" "none";
                  block "solution-db-05" "none"];
     answers := λ _, answer;
     log := [] |}.

(** The same page, with a visitor who answers [first] to the first prompt
    and [second] to every later one. *)
Definition page_retry (first second : string) : Browser :=
  {| document := document (page_UD1_1 None);
     answers := λ n, match n with 0 => Some first | _ => Some second end;
     log := [] |}.

(** ** Proof tactics *)

(** Unfolds the monad and the browser primitives. *)
Ltac script_unfold :=
  unfold mbind, Script_bind, mret, Script_ret,
    prompt, alert, console_error, getElementById, set_style_display; cbn.

(** Case analysis along the [case] labels of the [switch]. *)
Ltac switch_cases exerciseId :=
  destruct (String.eqb_spec exerciseId "UD1-1") as [->|?];
  [|destruct (String.eqb_spec exerciseId "UD1-2") as [->|?];
    [|destruct (String.eqb_spec exerciseId "db-05") as [->|?]]].

(** Given how a call ended ([H : Outcome _ _ _]), keeps the case (or cases)
    that the facts at hand allow. *)
Ltac by_outcome H := destruct H; simplify_eq; cbn.

(** ** How a call ends *)

Lemma run_outcome exerciseId w : Outcome exerciseId w (run exerciseId w).
Proof.
  unfold run, showSolutionPrompt.
  destruct (correctPassword exerciseId) as [pw|] eqn:Hpw; script_unfold.
  - destruct (answers w 0) as [p|] eqn:Hp; cbn.
    + destruct (String.eqb_spec p pw) as [->|Hne]; cbn.
      * destruct (findById _ (document w)) as [[i e]|] eqn:Hf; cbn.
        -- by eapply Revealed.
        -- rewrite <- !(assoc_L (++)). by eapply Missing.
      * rewrite <- (assoc_L (++)). by eapply Mismatched.
    + by eapply Cancelled.
  - rewrite <- (assoc_L (++)). by apply Unrecognized.
Qed.

(** ** Auxiliary facts *)

Lemma alerts_app l k : alerts (l ++ k) = alerts l ++ alerts k.
Proof. apply omap_app. Qed.

Lemma prompts_app l k : prompts (l ++ k) = prompts l ++ prompts k.
Proof. apply omap_app. Qed.

Lemma consoleErrors_app l k :
  consoleErrors (l ++ k) = consoleErrors l ++ consoleErrors k.
Proof. apply omap_app. Qed.

Lemma app_fixed {A} (l k : list A) : l ++ k = l -> k = [].
Proof.
  intros H. apply (app_inv_head l). by rewrite app_nil_r.
Qed.

Lemma findById_Some elementId doc i e :
  findById elementId doc = Some (i, e) ->
  doc !! i = Some e ∧ elemId e = elementId.
Proof.
  unfold findById. case_decide; [done|].
  intros (Hi & Hid & _)%list_find_Some. done.
Qed.

(** Writing the display of the element found leaves it the element found. *)
Lemma findById_setDisplay elementId doc i e value :
  findById elementId doc = Some (i, e) ->
  findById elementId (alter (setDisplay value) i doc)
  = Some (i, setDisplay value e).
Proof.
  unfold findById. case_decide; [done|].
  intros (Hi & Hid & Hfirst)%list_find_Some.
  apply list_find_Some. split_and!.
  - by rewrite list_lookup_alter_eq, Hi.
  - done.
  - intros j y Hj Hlt. rewrite list_lookup_alter_ne in Hj by lia. eauto.
Qed.

Lemma setDisplay_visible e : visible e -> setDisplay "block" e = e.
Proof.
  destruct e as [i [d o] a]. unfold visible, setDisplay. cbn. by intros ->.
Qed.

Lemma correctPassword_Some exerciseId pw :
  correctPassword exerciseId = Some pw ↔
  (exerciseId, pw) ∈ [("UD1-1", "cliente-servidor"); ("UD1-2", "http");
                      ("db-05", "persistencia_nexus")].
Proof.
  unfold correctPassword. split.
  - switch_cases exerciseId; intros [= <-]; repeat constructor.
  - intros H.
    repeat (apply elem_of_cons in H as [[= -> ->]|H]); try reflexivity.
    by apply elem_of_nil in H.
Qed.

Lemma correctPassword_None exerciseId :
  correctPassword exerciseId = None ↔ exerciseId ∉ registeredIds.
Proof.
  unfold correctPassword, registeredIds. rewrite !not_elem_of_cons. split.
  - switch_cases exerciseId; try discriminate.
    intros _. split_and!; try done. apply not_elem_of_nil.
  - intros (? & ? & ? & _). by switch_cases exerciseId.
Qed.

Lemma correctPassword_registered exerciseId pw :
  correctPassword exerciseId = Some pw -> exerciseId ∈ registeredIds.
Proof.
  intros Hpw. destruct (decide (exerciseId ∈ registeredIds)) as [|Hout]; [done|].
  apply correctPassword_None in Hout. congruence.
Qed.

(** The successful path, as an equation. *)
Lemma run_revealed exerciseId pw w i e :
  correctPassword exerciseId = Some pw ->
  answers w 0 = Some pw ->
  findById ("solution-" +:+ exerciseId) (document w) = Some (i, e) ->
  run exerciseId w
  = {| document := alter (setDisplay "block") i (document w);
       answers := λ n, answers w (S n);
       log := log w ++ [Prompt (promptMessage exerciseId)] |}.
Proof.
  intros Hpw Hans Hfind.
  destruct (run_outcome exerciseId w); simplify_eq; done.
Qed.

Create Rewrite HintDb events.
#[local] Hint Rewrite alerts_app prompts_app consoleErrors_app : events.

(** ** The contract of [showSolutionPrompt] *)

(** C1. For a registered exercise, entering its password when the page has
    an element with id "solution-" + exerciseId (the one [getElementById]
    finds) makes that element visible, and the only dialog shown is the
    prompt: no alert. *)
Theorem reveal_correct_password exerciseId pw w i e :
  correctPassword exerciseId = Some pw ->
  answers w 0 = Some pw ->
  findById ("solution-" +:+ exerciseId) (document w) = Some (i, e) ->
  let w' := run exerciseId w in
  (∃ e', findById ("solution-" +:+ exerciseId) (document w') = Some (i, e')
         ∧ visible e')
  ∧ log w' = log w ++ [Prompt (promptMessage exerciseId)]
  ∧ alerts (log w') = alerts (log w).
Proof.
  intros Hpw Hans Hfind w'. subst w'. by_outcome (run_outcome exerciseId w).
  split_and!.
  - exists (setDisplay "block" e). split; [|done].
    by apply findById_setDisplay.
  - done.
  - autorewrite with events. cbn. by rewrite app_nil_r.
Qed.

Lemma reveal_correct_password_witness :
  let w' := run "UD1-1" (page_UD1_1 (Some "cliente-servidor")) in
  (∃ e', findById "solution-UD1-1" (document w') = Some (1, e') ∧ visible e')
  ∧ log w' = [Prompt (promptMessage "UD1-1")]
  ∧ alerts (log w') = [].
Proof.
  apply (reveal_correct_password "UD1-1" "cliente-servidor"
           (page_UD1_1 (Some "cliente-servidor")) 1
           (block "solution-UD1-1" "none"));
    reflexivity.
Defined.

(** C2. For an identifier outside the registry no prompt is shown and no
    answer is consumed; the call ends after the UnrecognizedExercise
    notification (console trace, then alert) and the page is as before. *)
Theorem unrecognized_exercise exerciseId w :
  correctPassword exerciseId = None ->
  let w' := run exerciseId w in
  prompts (log w') = prompts (log w)
  ∧ answers w' = answers w
  ∧ log w' = log w ++ UnrecognizedExercise exerciseId
  ∧ alerts (log w')
    = alerts (log w)
        ++ ["Error de configuración: No se ha encontrado el ejercicio."]
  ∧ document w' = document w.
Proof.
  intros Hpw w'. subst w'. by_outcome (run_outcome exerciseId w).
  split_and!; try done; autorewrite with events; cbn; by rewrite ?app_nil_r.
Qed.

Lemma unrecognized_exercise_witness :
  let w := page_UD1_1 (Some "cliente-servidor") in
  let w' := run "nonexistent-id" w in
  prompts (log w') = []
  ∧ answers w' = answers w
  ∧ log w' = UnrecognizedExercise "nonexistent-id"
  ∧ alerts (log w')
    = ["Error de configuración: No se ha encontrado el ejercicio."]
  ∧ document w' = document w.
Proof.
  apply (unrecognized_exercise "nonexistent-id"
           (page_UD1_1 (Some "cliente-servidor"))).
  reflexivity.
Defined.

(** C3. For a registered exercise, entering any string other than its
    password leaves the page as it was and shows the WrongPassword
    notification, the alert "Contraseña incorrecta.". *)
Theorem wrong_password exerciseId pw p w :
  correctPassword exerciseId = Some pw ->
  answers w 0 = Some p ->
  p ≠ pw ->
  let w' := run exerciseId w in
  document w' = document w
  ∧ log w' = log w ++ Prompt (promptMessage exerciseId) :: WrongPassword
  ∧ alerts (log w') = alerts (log w) ++ ["Contraseña incorrecta."].
Proof.
  intros Hpw Hans Hne w'. subst w'. by_outcome (run_outcome exerciseId w).
  split_and!; try done. by autorewrite with events.
Qed.

Lemma wrong_password_witness :
  let w := page_UD1_1 (Some "wrong") in
  let w' := run "UD1-1" w in
  document w' = document w
  ∧ log w' = Prompt (promptMessage "UD1-1") :: WrongPassword
  ∧ alerts (log w') = ["Contraseña incorrecta."].
Proof.
  apply (wrong_password "UD1-1" "cliente-servidor" "wrong"
           (page_UD1_1 (Some "wrong")));
    [reflexivity | reflexivity | discriminate].
Defined.

(** C4. For a registered exercise, cancelling the prompt ends the call
    silently: the page is as before, and neither an alert nor a console
    trace is emitted. *)
Theorem cancel_is_silent exerciseId pw w :
  correctPassword exerciseId = Some pw ->
  answers w 0 = None ->
  let w' := run exerciseId w in
  document w' = document w
  ∧ log w' = log w ++ [Prompt (promptMessage exerciseId)]
  ∧ alerts (log w') = alerts (log w)
  ∧ consoleErrors (log w') = consoleErrors (log w).
Proof.
  intros Hpw Hans w'. subst w'. by_outcome (run_outcome exerciseId w).
  split_and!; try done; autorewrite with events; cbn; by rewrite app_nil_r.
Qed.

Lemma cancel_is_silent_witness :
  let w := page_UD1_1 None in
  let w' := run "db-05" w in
  document w' = document w
  ∧ log w' = [Prompt (promptMessage "db-05")]
  ∧ alerts (log w') = []
  ∧ consoleErrors (log w') = [].
Proof.
  apply (cancel_is_silent "db-05" "persistencia_nexus" (page_UD1_1 None));
    reflexivity.
Defined.

(** C5. For a registered exercise, entering its password when the page has
    no element with id "solution-" + exerciseId leaves the page as it was
    and emits the MissingSolutionElement notification (console trace, then
    alert), which comes after the prompt. *)
Theorem missing_solution_element exerciseId pw w :
  correctPassword exerciseId = Some pw ->
  answers w 0 = Some pw ->
  findById ("solution-" +:+ exerciseId) (document w) = None ->
  let w' := run exerciseId w in
  document w' = document w
  ∧ log w' = log w ++ Prompt (promptMessage exerciseId)
                        :: MissingSolutionElement exerciseId
  ∧ alerts (log w')
    = alerts (log w)
        ++ ["Error de configuración: No se encuentra el contenido de la solución."].
Proof.
  intros Hpw Hans Hfind w'. subst w'. by_outcome (run_outcome exerciseId w).
  split_and!; try done. by autorewrite with events.
Qed.

Lemma missing_solution_element_witness :
  let w := page_UD1_1 (Some "http") in
  let w' := run "UD1-2" w in
  document w' = document w
  ∧ log w' = Prompt (promptMessage "UD1-2") :: MissingSolutionElement "UD1-2"
  ∧ alerts (log w')
    = ["Error de configuración: No se encuentra el contenido de la solución."].
Proof.
  apply (missing_solution_element "UD1-2" "http" (page_UD1_1 (Some "http")));
    reflexivity.
Defined.

(** C6. For a registered exercise and an entered string (the prompt was not
    cancelled), the call goes on to the solution block (revealing it, or
    reporting it missing) exactly when the entry equals the registered
    password, and shows the WrongPassword notification exactly when it
    differs: equality of strings as they are, with no trimming and no case
    folding. *)
Theorem password_check_exact exerciseId pw p w :
  correctPassword exerciseId = Some pw ->
  answers w 0 = Some p ->
  let w' := run exerciseId w in
  (p = pw ↔
     log w' = log w ++ [Prompt (promptMessage exerciseId)]
     ∨ log w' = log w ++ Prompt (promptMessage exerciseId)
                          :: MissingSolutionElement exerciseId)
  ∧ (p ≠ pw ↔
       log w' = log w ++ Prompt (promptMessage exerciseId) :: WrongPassword).
Proof.
  intros Hpw Hans w'. subst w'. by_outcome (run_outcome exerciseId w).
  - (* mismatch *)
    split; split; try done.
    intros [H%(inj (app _))|H%(inj (app _))]; discriminate H.
  - (* match, block missing *)
    split; split; try done; [by right|].
    intros H%(inj (app _)). discriminate H.
  - (* match, block revealed *)
    split; split; try done; [by left|].
    intros H%(inj (app _)). discriminate H.
Qed.

Lemma password_check_exact_witness :
  let w := page_UD1_1 (Some "Cliente-Servidor ") in
  let w' := run "UD1-1" w in
  ("Cliente-Servidor " = "cliente-servidor" ↔
     log w' = log w ++ [Prompt (promptMessage "UD1-1")]
     ∨ log w' = log w ++ Prompt (promptMessage "UD1-1")
                          :: MissingSolutionElement "UD1-1")
  ∧ ("Cliente-Servidor " ≠ "cliente-servidor" ↔
       log w' = log w ++ Prompt (promptMessage "UD1-1") :: WrongPassword).
Proof.
  apply (password_check_exact "UD1-1" "cliente-servidor" "Cliente-Servidor "
           (page_UD1_1 (Some "Cliente-Servidor ")));
    reflexivity.
Defined.

(** C7. Idempotence.  Two calls in a row for a registered exercise, its
    password entered both times, with the solution block on the page: the
    block is visible after the first call and after the second, the second
    call leaves the page exactly as the first left it, and no alert is
    shown.  More generally a successful reveal of a block that is already
    visible changes nothing on the page. *)
Theorem reveal_idempotent exerciseId pw w i e :
  correctPassword exerciseId = Some pw ->
  answers w 0 = Some pw ->
  answers w 1 = Some pw ->
  findById ("solution-" +:+ exerciseId) (document w) = Some (i, e) ->
  let w1 := run exerciseId w in
  let w2 := run exerciseId w1 in
  (∃ e1, findById ("solution-" +:+ exerciseId) (document w1) = Some (i, e1)
         ∧ visible e1)
  ∧ (∃ e2, findById ("solution-" +:+ exerciseId) (document w2) = Some (i, e2)
           ∧ visible e2)
  ∧ document w2 = document w1
  ∧ alerts (log w2) = alerts (log w)
  ∧ (visible e -> document w1 = document w).
Proof.
  intros Hpw Hans0 Hans1 Hfind w1 w2.
  assert (Hfind1 : findById ("solution-" +:+ exerciseId) (document w1)
                   = Some (i, setDisplay "block" e)).
  { subst w1. rewrite (run_revealed _ _ _ _ _ Hpw Hans0 Hfind). cbn.
    by apply findById_setDisplay. }
  assert (Hw2 : document w2 = document w1).
  { subst w2. rewrite (run_revealed _ pw w1 i (setDisplay "block" e)); cbn.
    - subst w1. rewrite (run_revealed _ _ _ _ _ Hpw Hans0 Hfind). cbn.
      rewrite list_alter_alter_eq. by apply list_alter_ext.
    - done.
    - subst w1. by rewrite (run_revealed _ _ _ _ _ Hpw Hans0 Hfind).
    - done. }
  split_and!.
  - by exists (setDisplay "block" e).
  - rewrite Hw2. by exists (setDisplay "block" e).
  - done.
  - subst w2. rewrite (run_revealed _ pw w1 i (setDisplay "block" e)); cbn.
    + subst w1. rewrite (run_revealed _ _ _ _ _ Hpw Hans0 Hfind). cbn.
      autorewrite with events. cbn. by rewrite !app_nil_r.
    + done.
    + subst w1. by rewrite (run_revealed _ _ _ _ _ Hpw Hans0 Hfind).
    + done.
  - intros Hvis. subst w1. rewrite (run_revealed _ _ _ _ _ Hpw Hans0 Hfind).
    cbn. apply findById_Some in Hfind as [Hi _].
    apply list_eq. intros j. destruct (decide (i = j)) as [<-|Hne].
    + by rewrite list_lookup_alter_eq, Hi; cbn; rewrite setDisplay_visible.
    + by rewrite list_lookup_alter_ne.
Qed.

Lemma reveal_idempotent_witness :
  let w := page_UD1_1 (Some "cliente-servidor") in
  let w1 := run "UD1-1" w in
  let w2 := run "UD1-1" w1 in
  (∃ e1, findById "solution-UD1-1" (document w1) = Some (1, e1) ∧ visible e1)
  ∧ (∃ e2, findById "solution-UD1-1" (document w2) = Some (1, e2)
           ∧ visible e2)
  ∧ document w2 = document w1
  ∧ alerts (log w2) = alerts (log w)
  ∧ (visible (block "solution-UD1-1" "none") -> document w1 = document w).
Proof.
  apply (reveal_idempotent "UD1-1" "cliente-servidor"
           (page_UD1_1 (Some "cliente-servidor")) 1
           (block "solution-UD1-1" "none"));
    reflexivity.
Defined.

(** C8. Frame property.  Whatever the path of a call, the page keeps its
    elements, and each of them keeps its id, its attributes and every style
    property but [display]; an element is written only on the successful
    path (registered exercise, its password entered), it is then the one
    element found under the id "solution-" + exerciseId, and what is written
    is its display.  Every other element is exactly as before. *)
Theorem frame_property exerciseId w j e :
  document w !! j = Some e ->
  let w' := run exerciseId w in
  length (document w') = length (document w)
  ∧ ∃ e', document w' !! j = Some e'
      ∧ elemId e' = elemId e
      ∧ attributes e' = attributes e
      ∧ otherProperties (style e') = otherProperties (style e)
      ∧ (e' = e
         ∨ (e' = setDisplay "block" e
            ∧ elemId e = "solution-" +:+ exerciseId
            ∧ findById ("solution-" +:+ exerciseId) (document w) = Some (j, e)
            ∧ ∃ pw, correctPassword exerciseId = Some pw
                    ∧ answers w 0 = Some pw)).
Proof.
  intros Hj w'. subst w'.
  destruct (run_outcome exerciseId w) as [| | | |pw i e0 Hpw Hans Hfind]; cbn;
    try (split; [done|]; exists e; split_and!; try done; by left).
  split; [by rewrite length_alter|].
  destruct (decide (i = j)) as [->|Hne].
  - pose proof (findById_Some _ _ _ _ Hfind) as [Hj' Hid]. simplify_eq.
    exists (setDisplay "block" e).
    rewrite list_lookup_alter_eq, Hj. split_and!; try done.
    right. split_and!; try done. by exists pw.
  - exists e. rewrite list_lookup_alter_ne by done.
    split_and!; try done. by left.
Qed.

Lemma frame_property_witness :
  let w := page_UD1_1 (Some "cliente-servidor") in
  let e := block "solution-UD1-1" "none" in
  let w' := run "UD1-1" w in
  length (document w') = length (document w)
  ∧ ∃ e', document w' !! 1 = Some e'
      ∧ elemId e' = elemId e
      ∧ attributes e' = attributes e
      ∧ otherProperties (style e') = otherProperties (style e)
      ∧ (e' = e
         ∨ (e' = setDisplay "block" e
            ∧ elemId e = "solution-UD1-1"
            ∧ findById "solution-UD1-1" (document w) = Some (1, e)
            ∧ ∃ pw, correctPassword "UD1-1" = Some pw
                    ∧ answers w 0 = Some pw)).
Proof.
  apply (frame_property "UD1-1" (page_UD1_1 (Some "cliente-servidor")) 1
           (block "solution-UD1-1" "none")).
  reflexivity.
Defined.

(** C9. The [switch] of the source is the three-entry registry
    "UD1-1" -> "cliente-servidor", "UD1-2" -> "http",
    "db-05" -> "persistencia_nexus" and nothing else.  Hence a call shows
    the prompt exactly when its identifier is one of these three strings,
    and takes the UnrecognizedExercise path exactly when it is not. *)
Theorem registry_three_entries exerciseId w :
  correctPassword exerciseId = ExerciseRegistry !! exerciseId
  ∧ (∀ pw, correctPassword exerciseId = Some pw ↔
           (exerciseId, pw) ∈ [("UD1-1", "cliente-servidor"); ("UD1-2", "http");
                               ("db-05", "persistencia_nexus")])
  ∧ (prompts (log (run exerciseId w))
     = prompts (log w) ++ [promptMessage exerciseId]
     ↔ exerciseId ∈ registeredIds)
  ∧ (log (run exerciseId w) = log w ++ UnrecognizedExercise exerciseId
     ↔ exerciseId ∉ registeredIds).
Proof.
  split_and!.
  - unfold correctPassword, ExerciseRegistry.
    switch_cases exerciseId; by simplify_map_eq.
  - apply correctPassword_Some.
  - destruct (run_outcome exerciseId w) as [Hpw|pw Hpw|pw p Hpw|pw Hpw|pw i e Hpw];
      cbn; autorewrite with events; cbn; rewrite ?app_nil_r;
      try (split; [intros _; by eapply correctPassword_registered | done]).
    split.
    + intros H. symmetry in H. by apply app_fixed in H.
    + intros Hin. by apply correctPassword_None in Hpw.
  - rewrite <- correctPassword_None.
    destruct (run_outcome exerciseId w) as [Hpw|pw Hpw|pw p Hpw|pw Hpw|pw i e Hpw];
      cbn; (split; [|congruence]); try done;
      intros Heq%(inj (app _)); discriminate Heq.
Qed.

(** C10. The empty string is an entry like any other, not a cancellation.
    For a registered exercise, entering it shows the WrongPassword
    notification (no registered password is empty) and leaves the page as it
    was.  The silent path belongs to the cancel signal alone: on any browser,
    a call for that exercise that shows no alert is either a cancelled
    prompt or the successful reveal, which writes the solution block. *)
Theorem empty_entry_is_an_attempt exerciseId pw w :
  correctPassword exerciseId = Some pw ->
  answers w 0 = Some EmptyString ->
  let w' := run exerciseId w in
  pw ≠ EmptyString
  ∧ document w' = document w
  ∧ log w' = log w ++ Prompt (promptMessage exerciseId) :: WrongPassword
  ∧ alerts (log w') = alerts (log w) ++ ["Contraseña incorrecta."]
  ∧ ∀ v : Browser,
      alerts (log (run exerciseId v)) = alerts (log v) ->
      (answers v 0 = None ∧ document (run exerciseId v) = document v)
      ∨ (answers v 0 = Some pw
         ∧ ∃ i e,
             findById ("solution-" +:+ exerciseId) (document v) = Some (i, e)
             ∧ document (run exerciseId v)
               = alter (setDisplay "block") i (document v)).
Proof.
  intros Hpw Hans w'. subst w'.
  assert (Hne : pw ≠ EmptyString).
  { apply correctPassword_Some in Hpw.
    repeat (apply elem_of_cons in Hpw as [[= -> ->]|Hpw]); try done.
    by apply elem_of_nil in Hpw. }
  split; [done|]. split_and!.
  - by_outcome (run_outcome exerciseId w); done.
  - by_outcome (run_outcome exerciseId w); done.
  - by_outcome (run_outcome exerciseId w); try done. by autorewrite with events.
  - intros v.
    destruct (run_outcome exerciseId v)
      as [Hv|pv Hv Hc|pv p Hv Hp Hd|pv Hv Hp Hf|pv i e Hv Hp Hf];
      cbn; autorewrite with events; cbn; rewrite ?app_nil_r; intros Hsilent.
    + congruence.
    + by left.
    + by apply app_fixed in Hsilent.
    + by apply app_fixed in Hsilent.
    + right. split; [congruence|]. by exists i, e.
Qed.

Lemma empty_entry_is_an_attempt_witness :
  let w := page_UD1_1 (Some EmptyString) in
  let w' := run "UD1-1" w in
  "cliente-servidor" ≠ EmptyString
  ∧ document w' = document w
  ∧ log w' = log w ++ Prompt (promptMessage "UD1-1") :: WrongPassword
  ∧ alerts (log w') = alerts (log w) ++ ["Contraseña incorrecta."]
  ∧ ∀ v : Browser,
      alerts (log (run "UD1-1" v)) = alerts (log v) ->
      (answers v 0 = None ∧ document (run "UD1-1" v) = document v)
      ∨ (answers v 0 = Some "cliente-servidor"
         ∧ ∃ i e,
             findById "solution-UD1-1" (document v) = Some (i, e)
             ∧ document (run "UD1-1" v)
               = alter (setDisplay "block") i (document v)).
Proof.
  apply (empty_entry_is_an_attempt "UD1-1" "cliente-servidor"
           (page_UD1_1 (Some EmptyString)));
    reflexivity.
Defined.

(** ** Beyond the contract: what a call keeps, and how calls compose *)

(** Writing a display never changes which element an id finds. *)
Lemma findById_index_setDisplay k value i doc :
  fst <$> findById k (alter (setDisplay value) i doc) = fst <$> findById k doc.
Proof.
  unfold findById. case_decide; [done|].
  revert i. induction doc as [|x l IH]; intros [|i]; csimpl; try done.
  - by case_decide.
  - case_decide; [done|]. specialize (IH i).
    destruct (list_find _ (alter _ i l)) as [[]|],
             (list_find _ l) as [[]|]; by simplify_eq/=.
Qed.

(** Writing the display of the element found under one id leaves what any
    other id finds exactly as it was. *)
Lemma findById_other k key value i e doc :
  findById key doc = Some (i, e) ->
  k ≠ key ->
  findById k (alter (setDisplay value) i doc) = findById k doc.
Proof.
  intros [Hi Hid]%findById_Some Hne.
  destruct (findById k doc) as [[j x]|] eqn:Hk.
  - revert Hk. unfold findById. case_decide; [done|].
    intros (Hj & Hx & Hfirst)%list_find_Some.
    assert (i ≠ j) by (intros ->; simplify_eq; congruence).
    apply list_find_Some. split_and!.
    + by rewrite list_lookup_alter_ne.
    + done.
    + intros j' y Hj' Hlt. destruct (decide (i = j')) as [<-|?].
      * rewrite list_lookup_alter_eq, Hi in Hj'. simplify_eq/=. congruence.
      * rewrite list_lookup_alter_ne in Hj' by done. eauto.
  - pose proof (findById_index_setDisplay k value i doc) as Hix.
    rewrite Hk in Hix. by apply fmap_None in Hix.
Qed.

(** The page after a call for a registered exercise, as an equation. *)
Lemma run_document exerciseId pw w :
  correctPassword exerciseId = Some pw ->
  document (run exerciseId w)
  = match fst <$> findById ("solution-" +:+ exerciseId) (document w) with
    | Some i =>
        if decide (answers w 0 = Some pw)
        then alter (setDisplay "block") i (document w)
        else document w
    | None => document w
    end.
Proof.
  intros Hpw.
  destruct (run_outcome exerciseId w)
    as [Hv|pv Hv Hc|pv p Hv Hp Hd|pv Hv Hp Hf|pv i e Hv Hp Hf];
    simplify_eq; cbn.
  - destruct (fst <$> _); [|done]. by rewrite Hc, decide_False.
  - destruct (fst <$> _); [|done].
    rewrite Hp, decide_False; [done|congruence].
  - by rewrite Hf.
  - by rewrite Hf, Hp; cbn; rewrite decide_True.
Qed.

(** A call for a registered exercise takes exactly one answer. *)
Lemma run_answers exerciseId pw w n :
  correctPassword exerciseId = Some pw ->
  answers (run exerciseId w) n = answers w (S n).
Proof.
  intros Hpw. by destruct (run_outcome exerciseId w); simplify_eq.
Qed.

Lemma string_length_app a s :
  String.length (a +:+ s) = String.length a + String.length s.
Proof.
  induction a as [|c a IH]; [done|].
  change (S (String.length (a +:+ s))
          = S (String.length a) + String.length s).
  by rewrite IH.
Qed.

Lemma string_app_inj_r s a b : a +:+ s = b +:+ s -> a = b.
Proof.
  revert b. induction a as [|c a IH]; intros [|c' b] H.
  - done.
  - apply (f_equal String.length) in H.
    rewrite !string_length_app in H. cbn in H. lia.
  - apply (f_equal String.length) in H.
    rewrite !string_length_app in H. cbn in H. lia.
  - injection H as -> H. f_equal. by apply IH.
Qed.

(** X1. A call never hides anything: whatever the identifier and the answer,
    an element that was visible is still visible, at the same place. *)
Theorem never_hides exerciseId w j e :
  document w !! j = Some e ->
  visible e ->
  ∃ e', document (run exerciseId w) !! j = Some e' ∧ visible e'.
Proof.
  intros Hj Hvis.
  destruct (run_outcome exerciseId w) as [| | | |pw i e0 Hpw Hans Hfind]; cbn;
    try by exists e.
  destruct (decide (i = j)) as [->|Hne].
  - exists (setDisplay "block" e). by rewrite list_lookup_alter_eq, Hj.
  - exists e. by rewrite list_lookup_alter_ne.
Qed.

Lemma never_hides_witness :
  ∃ e', document (run "UD1-1" (page_UD1_1 (Some "wrong"))) !! 0 = Some e'
        ∧ visible e'.
Proof.
  apply (never_hides "UD1-1" (page_UD1_1 (Some "wrong")) 0
           (block "enunciado" "block"));
    reflexivity.
Defined.

(** X2. Exercises are isolated from one another.  A call keeps, for every
    id, the position of the element that id finds; and for any other
    exercise than the one called, the solution block found and its whole
    state are exactly as before, whatever was answered. *)
Theorem other_exercises_untouched exerciseId other k w :
  other ≠ exerciseId ->
  fst <$> findById k (document (run exerciseId w))
  = fst <$> findById k (document w)
  ∧ findById ("solution-" +:+ other) (document (run exerciseId w))
    = findById ("solution-" +:+ other) (document w).
Proof.
  intros Hne.
  destruct (run_outcome exerciseId w) as [| | | |pw i e Hpw Hans Hfind]; cbn;
    try done.
  split.
  - apply findById_index_setDisplay.
  - eapply findById_other; [done|].
    by intros Heq%(inj (String.app _)).
Qed.

Lemma other_exercises_untouched_witness :
  let w := page_UD1_1 (Some "cliente-servidor") in
  fst <$> findById "enunciado" (document (run "UD1-1" w))
  = fst <$> findById "enunciado" (document w)
  ∧ findById "solution-db-05" (document (run "UD1-1" w))
    = findById "solution-db-05" (document w).
Proof.
  apply (other_exercises_untouched "UD1-1" "db-05" "enunciado"
           (page_UD1_1 (Some "cliente-servidor"))).
  discriminate.
Defined.

(** X3. The log only grows, and a call adds little to it: at most one
    prompt, at most one alert, and a console trace only together with an
    alert. *)
Theorem at_most_one_dialog_each exerciseId w :
  ∃ evs, log (run exerciseId w) = log w ++ evs
         ∧ length (prompts evs) ≤ 1
         ∧ length (consoleErrors evs) ≤ length (alerts evs)
         ∧ length (alerts evs) ≤ 1.
Proof.
  destruct (run_outcome exerciseId w); cbn;
    (eexists; split; [reflexivity|]); cbn; lia.
Qed.

(** X4. No retry: a call for a registered exercise shows exactly one prompt
    and takes exactly one answer from the visitor, whatever that answer is
    and however the call ends, so the next call gets the answer that
    follows. *)
Theorem one_answer_per_call exerciseId pw w n :
  correctPassword exerciseId = Some pw ->
  answers (run exerciseId w) n = answers w (S n)
  ∧ prompts (log (run exerciseId w))
    = prompts (log w) ++ [promptMessage exerciseId].
Proof.
  intros Hpw.
  by_outcome (run_outcome exerciseId w);
    (split; [done|]); by autorewrite with events.
Qed.

Lemma one_answer_per_call_witness :
  let w := page_retry "wrong" "cliente-servidor" in
  answers (run "UD1-1" w) 0 = Some "cliente-servidor"
  ∧ prompts (log (run "UD1-1" w)) = [promptMessage "UD1-1"].
Proof.
  apply (one_answer_per_call "UD1-1" "cliente-servidor"
           (page_retry "wrong" "cliente-servidor") 0).
  reflexivity.
Defined.

(** X5. A call keeps no memory of earlier calls: on two browsers with the
    same page and the same next answer, whatever their logs and later
    answers, it leaves the same page and emits the same events. *)
Theorem outcome_ignores_history exerciseId w v :
  document w = document v ->
  answers w 0 = answers v 0 ->
  document (run exerciseId w) = document (run exerciseId v)
  ∧ ∃ evs, log (run exerciseId w) = log w ++ evs
           ∧ log (run exerciseId v) = log v ++ evs.
Proof.
  intros Hdoc Hans.
  destruct (run_outcome exerciseId w), (run_outcome exerciseId v); cbn;
    try congruence;
    (split; [congruence | eexists; split; reflexivity]).
Qed.

Lemma outcome_ignores_history_witness :
  let w := page_UD1_1 (Some "wrong") in
  let v := page_retry "wrong" "cliente-servidor" in
  document (run "UD1-1" w) = document (run "UD1-1" v)
  ∧ ∃ evs, log (run "UD1-1" w) = log w ++ evs
           ∧ log (run "UD1-1" v) = log v ++ evs.
Proof.
  apply (outcome_ignores_history "UD1-1" (page_UD1_1 (Some "wrong"))
           (page_retry "wrong" "cliente-servidor"));
    reflexivity.
Defined.

(** X6. No lockout: after a wrong password, a second call for the same
    exercise with the right one reveals the block; the only alert of the
    two calls is the WrongPassword of the first. *)
Theorem retry_after_wrong_password exerciseId pw p w i e :
  correctPassword exerciseId = Some pw ->
  answers w 0 = Some p ->
  p ≠ pw ->
  answers w 1 = Some pw ->
  findById ("solution-" +:+ exerciseId) (document w) = Some (i, e) ->
  let w2 := run exerciseId (run exerciseId w) in
  (∃ e', findById ("solution-" +:+ exerciseId) (document w2) = Some (i, e')
         ∧ visible e')
  ∧ alerts (log w2) = alerts (log w) ++ ["Contraseña incorrecta."].
Proof.
  intros Hpw Hans0 Hne Hans1 Hfind w2. subst w2.
  by_outcome (run_outcome exerciseId w).
  match goal with |- context [run exerciseId ?w1] =>
    destruct (run_outcome exerciseId w1); cbn in *; simplify_eq end.
  split.
  - exists (setDisplay "block" e). split; [|done].
    by apply findById_setDisplay.
  - autorewrite with events. cbn. by rewrite app_nil_r.
Qed.

Lemma retry_after_wrong_password_witness :
  let w := page_retry "wrong" "cliente-servidor" in
  let w2 := run "UD1-1" (run "UD1-1" w) in
  (∃ e', findById "solution-UD1-1" (document w2) = Some (1, e') ∧ visible e')
  ∧ alerts (log w2) = alerts (log w) ++ ["Contraseña incorrecta."].
Proof.
  apply (retry_after_wrong_password "UD1-1" "cliente-servidor" "wrong"
           (page_retry "wrong" "cliente-servidor") 1
           (block "solution-UD1-1" "none"));
    [reflexivity | reflexivity | discriminate | reflexivity | reflexivity].
Defined.

(** X7. The order of two calls does not matter for the page.  For two
    registered exercises (the same one or not), calling the first and then
    the second leaves the page that calling the second and then the first
    leaves, each call being given the same answer in both orders. *)
Theorem calls_commute id1 id2 pw1 pw2 w v :
  correctPassword id1 = Some pw1 ->
  correctPassword id2 = Some pw2 ->
  document v = document w ->
  answers v 0 = answers w 1 ->
  answers v 1 = answers w 0 ->
  document (run id2 (run id1 w)) = document (run id1 (run id2 v)).
Proof.
  intros H1 H2 Hdoc Hv0 Hv1.
  rewrite (run_document id2 pw2 (run id1 w)) by done.
  rewrite (run_document id1 pw1 (run id2 v)) by done.
  rewrite (run_answers id1 pw1 w), (run_answers id2 pw2 v) by done.
  rewrite (run_document id1 pw1 w), (run_document id2 pw2 v) by done.
  rewrite Hdoc, Hv0, Hv1.
  destruct (fst <$> findById ("solution-" +:+ id1) (document w))
    as [i|] eqn:Hi;
    destruct (fst <$> findById ("solution-" +:+ id2) (document w))
    as [j|] eqn:Hj;
    repeat case_decide;
    rewrite ?findById_index_setDisplay, ?Hi, ?Hj;
    repeat case_decide; try done.
  destruct (decide (j = i)) as [->|Hne]; [done|].
  by apply list_alter_alter_ne.
Qed.

Lemma calls_commute_witness :
  let w := page_retry "cliente-servidor" "persistencia_nexus" in
  let v := page_retry "persistencia_nexus" "cliente-servidor" in
  document (run "db-05" (run "UD1-1" w))
  = document (run "UD1-1" (run "db-05" v)).
Proof.
  apply (calls_commute "UD1-1" "db-05" "cliente-servidor"
           "persistencia_nexus");
    reflexivity.
Defined.

(** X8. The password of one exercise does not open another: entered at the
    prompt of a different registered exercise, it is answered by the
    WrongPassword notification and the page stays as it was. *)
Theorem password_of_another_exercise id1 id2 pw1 pw2 w :
  correctPassword id1 = Some pw1 ->
  correctPassword id2 = Some pw2 ->
  id1 ≠ id2 ->
  answers w 0 = Some pw2 ->
  document (run id1 w) = document w
  ∧ log (run id1 w) = log w ++ Prompt (promptMessage id1) :: WrongPassword.
Proof.
  intros H1 H2 Hne Hans.
  assert (Hpw : pw2 ≠ pw1).
  { apply correctPassword_Some in H1, H2.
    repeat (apply elem_of_cons in H1 as [[= -> ->]|H1]);
      repeat (apply elem_of_cons in H2 as [[= -> ->]|H2]);
      try done;
      solve [by apply elem_of_nil in H1 | by apply elem_of_nil in H2]. }
  by by_outcome (run_outcome id1 w).
Qed.

Lemma password_of_another_exercise_witness :
  let w := page_UD1_1 (Some "persistencia_nexus") in
  document (run "UD1-1" w) = document w
  ∧ log (run "UD1-1" w) = log w ++ Prompt (promptMessage "UD1-1") :: WrongPassword.
Proof.
  apply (password_of_another_exercise "UD1-1" "db-05" "cliente-servidor"
           "persistencia_nexus" (page_UD1_1 (Some "persistencia_nexus")));
    [reflexivity | reflexivity | discriminate | reflexivity].
Defined.

(** X9. The texts derived from the identifier tell the exercises apart: two
    identifiers give the same prompt message, or the same id for the solution
    block, only when they are the same identifier. *)
Theorem derived_names_identify_exercise a b :
  (promptMessage a = promptMessage b ↔ a = b)
  ∧ ("solution-" +:+ a = "solution-" +:+ b ↔ a = b).
Proof.
  split; (split; [|by intros ->]).
  - unfold promptMessage.
    intros H%(inj (String.app _))%(inj (String.app _)).
    by apply string_app_inj_r in H.
  - by intros H%(inj (String.app _)).
Qed.
